(** * Route registry of the tenant UI front end

    A model of [services/tenant-ui/frontend/src/helpers/constants.ts]:
    the pagination options [TABLE_OPT], the route table [API_PATH] and the
    two status vocabularies [CONNECTION_STATUSES] and [RESERVATION_STATUSES].

    The module is a literal data dictionary.  Its only executable parts are
    the arrow functions of [API_PATH], each of which has a single parameter
    and a template literal as its body.  They are modelled with the
    semantics JavaScript gives them: the body is evaluated with the
    parameter bound to the argument, in front of whatever the enclosing
    scopes hold, and evaluation yields a completion together with the
    (possibly updated) enclosing bindings. *)

From Stdlib Require Import Strings.String Strings.Ascii Lists.List ZArith Lia.
From Stdlib Require Import Sorting.Sorted.
Import ListNotations.

Local Open Scope list_scope.
Local Open Scope string_scope.

(** ** Evaluation of the expressions the module uses *)

(** Bindings of the enclosing scopes (module and global variables), the
    innermost first.  This is the state an arrow function could observe or
    change besides its own parameter. *)
Definition Store := list (string * string).

Fixpoint lookup (x : string) (st : Store) : option string :=
  match st with
  | [] => None
  | (y, v) :: rest => if String.eqb x y then Some v else lookup x rest
  end.

(** The activation of an arrow function of one parameter. *)
Record Frame := { param : string; arg : string }.

(** Result of evaluating an expression: a string value, or the
    [ReferenceError] raised by an identifier that nothing binds. *)
Inductive Completion :=
| Normal (v : string)
| ReferenceError (x : string).

Definition Expr := Frame -> Store -> Completion * Store.

(** An identifier reference resolves to the parameter when the names agree,
    and to the enclosing scopes otherwise. *)
Definition ident (x : string) : Expr :=
  fun fr st =>
    if String.eqb x (param fr) then (Normal (arg fr), st)
    else match lookup x st with
         | Some v => (Normal v, st)
         | None => (ReferenceError x, st)
         end.

(** A template literal [`q0${e0}q1${e1}...qn`]: the literal chunks [quasis]
    and the substitutions [exprs] are concatenated alternately, the
    substitutions being evaluated from left to right.  A substitution that
    completes abruptly ends the evaluation. *)
Fixpoint template (quasis : list string) (exprs : list Expr) : Expr :=
  fun fr st =>
    match quasis with
    | [] => (Normal "", st)
    | q :: qs =>
        match exprs with
        | [] => (Normal q, st)
        | e :: es =>
            match e fr st with
            | (Normal v, st1) =>
                match template qs es fr st1 with
                | (Normal r, st2) => (Normal (q ++ v ++ r), st2)
                | abrupt => abrupt
                end
            | abrupt => abrupt
            end
        end
    end.

(** A function value [(p: string) => body] applied to a string. *)
Definition Accessor := string -> Store -> Completion * Store.

Definition arrow (p : string) (body : Expr) : Accessor :=
  fun id st => body {| param := p; arg := id |} st.

(** ** [TABLE_OPT] *)

Module TABLE_OPT.
Definition ROWS_DEFAULT : Z := 10.
Definition ROWS_OPTIONS : list Z := [10; 25; 50]%Z.
End TABLE_OPT.

(** ** [API_PATH] *)

Inductive PathEntry :=
| ConstantPath (s : string)
| TemplatedPath (f : Accessor).

Module API_PATH.

(* The tenant UI backend *)
Definition CONFIG := "/config".
Definition EMAIL_CONFIRMATION := "/email/reservationConfirmation".
Definition EMAIL_STATUS := "/email/reservationStatus".

(* Acapy and plugins (and Traction for now) *)
Definition INNKEEPER_TOKEN := "/innkeeper/token".
Definition INNKEEPER_TENANTS := "/innkeeper/tenants/".
Definition INNKEEPER_TENANT : Accessor :=
  arrow "id" (template ["/innkeeper/tenants/"; ""] [ident "id"]).
Definition INNKEEPER_RESERVATIONS := "/innkeeper/reservations/".
Definition INNKEEPER_RESERVATIONS_APPROVE : Accessor :=
  arrow "id" (template ["/innkeeper/reservations/"; "/approve"] [ident "id"]).
Definition INNKEEPER_RESERVATIONS_DENY : Accessor :=
  arrow "id" (template ["/innkeeper/reservations/"; "/deny"] [ident "id"]).

Definition OIDC_INNKEEPER_LOGIN := "/api/innkeeperLogin".

Definition TENANT_TOKEN := "/tenant/token".

Definition CONNECTIONS := "/connections".
Definition CONNECTION : Accessor :=
  arrow "id" (template ["/connections/"; ""] [ident "id"]).
Definition CONNECTIONS_CREATE_INVITATION := "/connections/create-invitation".
Definition CONNECTIONS_INVITATION : Accessor :=
  arrow "id" (template ["/connections/"; "/invitation"] [ident "id"]).

Definition HOLDER_CREDENTIALS := "/tenant/v1/holder/credentials/".
Definition HOLDER_CREDENTIALS_ACCEPT_OFFER : Accessor :=
  arrow "id"
    (template ["/tenant/v1/holder/credentials/"; "/accept-offer"] [ident "id"]).
Definition HOLDER_CREDENTIALS_REJECT_OFFER : Accessor :=
  arrow "id"
    (template ["/tenant/v1/holder/credentials/"; "/reject-offer"] [ident "id"]).
Definition HOLDER_CREDENTIAL : Accessor :=
  arrow "id" (template ["/tenant/v1/holder/credentials/"; ""] [ident "id"]).
Definition HOLDER_PRESENTATIONS := "/tenant/v1/holder/presentations/".
Definition HOLDER_PRESENTATION : Accessor :=
  arrow "id" (template ["/tenant/v1/holder/presentations/"; ""] [ident "id"]).

Definition ISSUER_CREDENTIALS := "/tenant/v1/issuer/credentials/".
Definition ISSUER_CREDENTIAL : Accessor :=
  arrow "id" (template ["/tenant/v1/issuer/credentials/"; ""] [ident "id"]).
Definition ISSUER_CREDENTIAL_REVOKE : Accessor :=
  arrow "id"
    (template ["/tenant/v1/issuer/credentials/"; "/revoke-credential"]
              [ident "id"]).

Definition VERIFIER_PRESENTATIONS := "/tenant/v1/verifier/presentations/".
Definition VERIFIER_PRESENTATION : Accessor :=
  arrow "id"
    (template ["/tenant/v1/verifier/presentations/"; ""] [ident "id"]).
Definition VERIFIER_PRESENTATION_ADHOC_REQUEST :=
  "/tenant/v1/verifier/presentations/adhoc-request".
Definition VERIFIER_PRESENTATION_TEMPLATES :=
  "/tenant/v1/verifier/presentation_templates/".

Definition GOVERNANCE_SCHEMA_TEMPLATES :=
  "/tenant/v1/governance/schema_templates/".
Definition GOVERNANCE_SCHEMA_TEMPLATES_IMPORT :=
  "/tenant/v1/governance/schema_templates/import".
Definition GOVERNANCE_SCHEMA_TEMPLATE : Accessor :=
  arrow "id"
    (template ["/tenant/v1/governance/schema_templates/"; ""] [ident "id"]).
Definition GOVERNANCE_CREDENTIAL_TEMPLATES :=
  "/tenant/v1/governance/credential_templates/".
Definition GOVERNANCE_CREDENTIAL_TEMPLATE : Accessor :=
  arrow "id"
    (template ["/tenant/v1/governance/credential_templates/"; ""]
              [ident "id"]).

Definition BASICMESSAGES := "/basicmessages".
Definition BASICMESSAGES_SEND : Accessor :=
  arrow "connId"
    (template ["/connections/"; "/send-message"] [ident "connId"]).

Definition TENANT_SELF := "/tenant".
Definition TENANT_ENDORSER_CONNECTION := "/tenant/endorser-connection".
Definition TENANT_ENDORSER_INFO := "/tenant/endorser-info".
Definition TENANT_REGISTER_PUBLIC_DID := "/tenant/register-public-did".

Definition MULTITENANCY_RESERVATIONS := "/multitenancy/reservations".
Definition MULTITENANCY_RESERVATION : Accessor :=
  arrow "resId" (template ["/multitenancy/reservations/"; ""] [ident "resId"]).
Definition MULTITENANCY_RESERVATION_CHECK_IN : Accessor :=
  arrow "resId"
    (template ["/multitenancy/reservations/"; "/check-in"] [ident "resId"]).
Definition MULTITENANCY_TENANT_TOKEN : Accessor :=
  arrow "tenantId"
    (template ["/multitenancy/tenant/"; "/token"] [ident "tenantId"]).
Definition MULTITENANCY_WALLET_TOKEN : Accessor :=
  arrow "tenantId"
    (template ["/multitenancy/wallet/"; "/token"] [ident "tenantId"]).

Definition WALLET_DID_PUBLIC := "/wallet/did/public".

(** The object literal itself: its properties in the order they are
    written. *)
Definition entries : list (string * PathEntry) :=
  [ ("CONFIG", ConstantPath CONFIG);
    ("EMAIL_CONFIRMATION", ConstantPath EMAIL_CONFIRMATION);
    ("EMAIL_STATUS", ConstantPath EMAIL_STATUS);
    ("INNKEEPER_TOKEN", ConstantPath INNKEEPER_TOKEN);
    ("INNKEEPER_TENANTS", ConstantPath INNKEEPER_TENANTS);
    ("INNKEEPER_TENANT", TemplatedPath INNKEEPER_TENANT);
    ("INNKEEPER_RESERVATIONS", ConstantPath INNKEEPER_RESERVATIONS);
    ("INNKEEPER_RESERVATIONS_APPROVE",
      TemplatedPath INNKEEPER_RESERVATIONS_APPROVE);
    ("INNKEEPER_RESERVATIONS_DENY", TemplatedPath INNKEEPER_RESERVATIONS_DENY);
    ("OIDC_INNKEEPER_LOGIN", ConstantPath OIDC_INNKEEPER_LOGIN);
    ("TENANT_TOKEN", ConstantPath TENANT_TOKEN);
    ("CONNECTIONS", ConstantPath CONNECTIONS);
    ("CONNECTION", TemplatedPath CONNECTION);
    ("CONNECTIONS_CREATE_INVITATION",
      ConstantPath CONNECTIONS_CREATE_INVITATION);
    ("CONNECTIONS_INVITATION", TemplatedPath CONNECTIONS_INVITATION);
    ("HOLDER_CREDENTIALS", ConstantPath HOLDER_CREDENTIALS);
    ("HOLDER_CREDENTIALS_ACCEPT_OFFER",
      TemplatedPath HOLDER_CREDENTIALS_ACCEPT_OFFER);
    ("HOLDER_CREDENTIALS_REJECT_OFFER",
      TemplatedPath HOLDER_CREDENTIALS_REJECT_OFFER);
    ("HOLDER_CREDENTIAL", TemplatedPath HOLDER_CREDENTIAL);
    ("HOLDER_PRESENTATIONS", ConstantPath HOLDER_PRESENTATIONS);
    ("HOLDER_PRESENTATION", TemplatedPath HOLDER_PRESENTATION);
    ("ISSUER_CREDENTIALS", ConstantPath ISSUER_CREDENTIALS);
    ("ISSUER_CREDENTIAL", TemplatedPath ISSUER_CREDENTIAL);
    ("ISSUER_CREDENTIAL_REVOKE", TemplatedPath ISSUER_CREDENTIAL_REVOKE);
    ("VERIFIER_PRESENTATIONS", ConstantPath VERIFIER_PRESENTATIONS);
    ("VERIFIER_PRESENTATION", TemplatedPath VERIFIER_PRESENTATION);
    ("VERIFIER_PRESENTATION_ADHOC_REQUEST",
      ConstantPath VERIFIER_PRESENTATION_ADHOC_REQUEST);
    ("VERIFIER_PRESENTATION_TEMPLATES",
      ConstantPath VERIFIER_PRESENTATION_TEMPLATES);
    ("GOVERNANCE_SCHEMA_TEMPLATES", ConstantPath GOVERNANCE_SCHEMA_TEMPLATES);
    ("GOVERNANCE_SCHEMA_TEMPLATES_IMPORT",
      ConstantPath GOVERNANCE_SCHEMA_TEMPLATES_IMPORT);
    ("GOVERNANCE_SCHEMA_TEMPLATE", TemplatedPath GOVERNANCE_SCHEMA_TEMPLATE);
    ("GOVERNANCE_CREDENTIAL_TEMPLATES",
      ConstantPath GOVERNANCE_CREDENTIAL_TEMPLATES);
    ("GOVERNANCE_CREDENTIAL_TEMPLATE",
      TemplatedPath GOVERNANCE_CREDENTIAL_TEMPLATE);
    ("BASICMESSAGES", ConstantPath BASICMESSAGES);
    ("BASICMESSAGES_SEND", TemplatedPath BASICMESSAGES_SEND);
    ("TENANT_SELF", ConstantPath TENANT_SELF);
    ("TENANT_ENDORSER_CONNECTION", ConstantPath TENANT_ENDORSER_CONNECTION);
    ("TENANT_ENDORSER_INFO", ConstantPath TENANT_ENDORSER_INFO);
    ("TENANT_REGISTER_PUBLIC_DID", ConstantPath TENANT_REGISTER_PUBLIC_DID);
    ("MULTITENANCY_RESERVATIONS", ConstantPath MULTITENANCY_RESERVATIONS);
    ("MULTITENANCY_RESERVATION", TemplatedPath MULTITENANCY_RESERVATION);
    ("MULTITENANCY_RESERVATION_CHECK_IN",
      TemplatedPath MULTITENANCY_RESERVATION_CHECK_IN);
    ("MULTITENANCY_TENANT_TOKEN", TemplatedPath MULTITENANCY_TENANT_TOKEN);
    ("MULTITENANCY_WALLET_TOKEN", TemplatedPath MULTITENANCY_WALLET_TOKEN);
    ("WALLET_DID_PUBLIC", ConstantPath WALLET_DID_PUBLIC) ].

End API_PATH.

(** The own property the literal [obj] writes under [name]: what a read
    [API_PATH.NAME] yields for a name of the literal.  [None] says that the
    literal has no such key, and nothing more: members an object inherits
    from [Object.prototype] are not entries of the literal and are not
    looked up here. *)
Fixpoint property (name : string) (obj : list (string * PathEntry))
  : option PathEntry :=
  match obj with
  | [] => None
  | (k, e) :: rest => if String.eqb name k then Some e else property name rest
  end.

(** The path a caller obtains from an entry: the constant itself, or the
    completion of the call on [id]. *)
Definition path_of (e : PathEntry) (id : string) (st : Store) : Completion :=
  match e with
  | ConstantPath s => Normal s
  | TemplatedPath f => fst (f id st)
  end.

(** ** [CONNECTION_STATUSES] and [RESERVATION_STATUSES] *)

Module CONNECTION_STATUSES.
Definition INVITATION := "invitation".
Definition ACTIVE := "active".
Definition RESPONSE := "response".

(** [Object.values], in the order the properties are written. *)
Definition values : list string := [INVITATION; ACTIVE; RESPONSE].
End CONNECTION_STATUSES.

Module RESERVATION_STATUSES.
Definition APPROVED := "approved".
Definition CHECKED_IN := "checked_in".
Definition DENIED := "denied".
Definition REQUESTED := "requested".
(* Not an API status, but the state on the FE when just checked-in
   so they can one-time see the wallet key *)
Definition SHOW_WALLET := "show_wallet".

Definition values : list string :=
  [APPROVED; CHECKED_IN; DENIED; REQUESTED; SHOW_WALLET].

(** The statuses the API reports: every property but the one the comment
    marks as front-end only. *)
Definition backend_values : list string :=
  [APPROVED; CHECKED_IN; DENIED; REQUESTED].
End RESERVATION_STATUSES.

(** ** Vocabulary of the statements *)

(** [f] fills one slot between two fixed pieces of text, and leaves the
    enclosing bindings as they were. *)
Definition fills_slot (f : Accessor) (prefix suffix : string) : Prop :=
  forall id st, f id st = (Normal (prefix ++ id ++ suffix), st).

Definition starts_with_slash (s : string) : bool :=
  match s with
  | String c _ => Ascii.eqb c "/"
  | EmptyString => false
  end.

Fixpoint ends_with (tail s : string) : bool :=
  String.eqb tail s
  || match s with
     | EmptyString => false
     | String _ rest => ends_with tail rest
     end.

Definition templated_entries (obj : list (string * PathEntry))
  : list (string * Accessor) :=
  flat_map (fun ne => match snd ne with
                      | TemplatedPath f => [(fst ne, f)]
                      | ConstantPath _ => []
                      end) obj.

Definition constant_entries (obj : list (string * PathEntry))
  : list (string * string) :=
  flat_map (fun ne => match snd ne with
                      | ConstantPath s => [(fst ne, s)]
                      | TemplatedPath _ => []
                      end) obj.

(** No two distinct properties of [obj] ever yield the same path. *)
Definition collision_free (obj : list (string * PathEntry)) : Prop :=
  forall n1 e1 n2 e2 id1 id2 st,
    In (n1, e1) obj -> In (n2, e2) obj ->
    path_of e1 id1 st = path_of e2 id2 st -> n1 = n2.

(** *** The documented literals

    The literal paths the documentation of the module lists for its endpoint
    families, in the order of its table.  A path written in full is
    [Literally] that text; a path abbreviated with a leading ellipsis is
    known by its [Ending] only. *)
Inductive Documented :=
| Literally (s : string)
| Ending (s : string).

Definition documented_literal_paths : list Documented :=
  [ (* Config/email *)
    Literally "/config"; Literally "/email/reservationConfirmation";
    Literally "/email/reservationStatus";
    (* Innkeeper (admin) *)
    Literally "/innkeeper/token"; Literally "/innkeeper/tenants/";
    Literally "/innkeeper/reservations/";
    (* OIDC *)
    Literally "/api/innkeeperLogin";
    (* Tenant auth *)
    Literally "/tenant/token";
    (* Connections *)
    Literally "/connections"; Literally "/connections/create-invitation";
    (* Holder *)
    Literally "/tenant/v1/holder/credentials/";
    Literally "/tenant/v1/holder/presentations/";
    (* Issuer *)
    Literally "/tenant/v1/issuer/credentials/";
    (* Verifier *)
    Literally "/tenant/v1/verifier/presentations/"; Ending "/adhoc-request";
    Ending "/presentation_templates/";
    (* Governance *)
    Ending "/schema_templates/"; Ending "/credential_templates/";
    Ending "/import";
    (* Basic messages *)
    Literally "/basicmessages";
    (* Tenant self-service *)
    Literally "/tenant"; Literally "/tenant/endorser-connection";
    Literally "/tenant/endorser-info"; Literally "/tenant/register-public-did";
    (* Multitenancy *)
    Literally "/multitenancy/reservations"; Ending "/check-in";
    Ending "/tenant/{id}/token"; Ending "/wallet/{id}/token";
    (* Wallet *)
    Literally "/wallet/did/public" ].

(** The constants the documentation spells out together with their name. *)
Definition documented_by_name : list (string * string) :=
  [ ("CONFIG", "/config");
    ("INNKEEPER_TENANTS", "/innkeeper/tenants/");
    ("OIDC_INNKEEPER_LOGIN", "/api/innkeeperLogin");
    ("VERIFIER_PRESENTATION_ADHOC_REQUEST",
      "/tenant/v1/verifier/presentations/adhoc-request");
    ("WALLET_DID_PUBLIC", "/wallet/did/public") ].

Definition documents (d : Documented) (s : string) : bool :=
  match d with
  | Literally l => String.eqb l s
  | Ending t => ends_with t s
  end.

Definition documented (s : string) : bool :=
  existsb (fun d => documents d s) documented_literal_paths.

(** The documented literal of every constant, by name, family by family in
    the order of the table.  A literal the table writes in full is taken
    [InFull]; a literal the table abbreviates is taken as [Abbreviated]:
    the ending the table writes, after the directory its ellipsis stands
    for.  That directory is the one of the family under [/tenant/v1], as
    the Holder, Issuer and Verifier rows write it in full; for the ad-hoc
    request it is the presentations directory written just before it, as
    the sentence on constant paths spells out; for the import it is the
    schema templates directory. *)
Inductive Spelling :=
| InFull (s : string)
| Abbreviated (stem tail : string).

Definition written_out (d : Spelling) : string :=
  match d with
  | InFull s => s
  | Abbreviated stem tail => stem ++ tail
  end.

(** The entry of the table of literals a spelling comes from. *)
Definition as_written (d : Spelling) : Documented :=
  match d with
  | InFull s => Literally s
  | Abbreviated _ tail => Ending tail
  end.

Definition documented_constants : list (string * Spelling) :=
  [ (* Config/email *)
    ("CONFIG", InFull "/config");
    ("EMAIL_CONFIRMATION", InFull "/email/reservationConfirmation");
    ("EMAIL_STATUS", InFull "/email/reservationStatus");
    (* Innkeeper (admin) *)
    ("INNKEEPER_TOKEN", InFull "/innkeeper/token");
    ("INNKEEPER_TENANTS", InFull "/innkeeper/tenants/");
    ("INNKEEPER_RESERVATIONS", InFull "/innkeeper/reservations/");
    (* OIDC *)
    ("OIDC_INNKEEPER_LOGIN", InFull "/api/innkeeperLogin");
    (* Tenant auth *)
    ("TENANT_TOKEN", InFull "/tenant/token");
    (* Connections *)
    ("CONNECTIONS", InFull "/connections");
    ("CONNECTIONS_CREATE_INVITATION", InFull "/connections/create-invitation");
    (* Holder *)
    ("HOLDER_CREDENTIALS", InFull "/tenant/v1/holder/credentials/");
    ("HOLDER_PRESENTATIONS", InFull "/tenant/v1/holder/presentations/");
    (* Issuer *)
    ("ISSUER_CREDENTIALS", InFull "/tenant/v1/issuer/credentials/");
    (* Verifier *)
    ("VERIFIER_PRESENTATIONS", InFull "/tenant/v1/verifier/presentations/");
    ("VERIFIER_PRESENTATION_ADHOC_REQUEST",
      Abbreviated "/tenant/v1/verifier/presentations" "/adhoc-request");
    ("VERIFIER_PRESENTATION_TEMPLATES",
      Abbreviated "/tenant/v1/verifier" "/presentation_templates/");
    (* Governance *)
    ("GOVERNANCE_SCHEMA_TEMPLATES",
      Abbreviated "/tenant/v1/governance" "/schema_templates/");
    ("GOVERNANCE_CREDENTIAL_TEMPLATES",
      Abbreviated "/tenant/v1/governance" "/credential_templates/");
    ("GOVERNANCE_SCHEMA_TEMPLATES_IMPORT",
      Abbreviated "/tenant/v1/governance/schema_templates" "/import");
    (* Basic messages *)
    ("BASICMESSAGES", InFull "/basicmessages");
    (* Tenant self-service *)
    ("TENANT_SELF", InFull "/tenant");
    ("TENANT_ENDORSER_CONNECTION", InFull "/tenant/endorser-connection");
    ("TENANT_ENDORSER_INFO", InFull "/tenant/endorser-info");
    ("TENANT_REGISTER_PUBLIC_DID", InFull "/tenant/register-public-did");
    (* Multitenancy *)
    ("MULTITENANCY_RESERVATIONS", InFull "/multitenancy/reservations");
    (* Wallet *)
    ("WALLET_DID_PUBLIC", InFull "/wallet/did/public") ].

(** *** Reading a path back

    What a router on the other side does with a path: cut it at the
    slashes, or match it against a prefix and a suffix. *)

Fixpoint slash_free (s : string) : bool :=
  match s with
  | EmptyString => true
  | String c rest => negb (Ascii.eqb c "/") && slash_free rest
  end.

(** What may follow an identifier inside a path: nothing, or a slash. *)
Definition separator (s : string) : bool :=
  match s with
  | EmptyString => true
  | String c _ => Ascii.eqb c "/"
  end.

(** The pieces between the slashes: [segments "/a/b"] is [""; "a"; "b"]. *)
Fixpoint segments (s : string) : list string :=
  match s with
  | EmptyString => [EmptyString]
  | String c rest =>
      if Ascii.eqb c "/" then EmptyString :: segments rest
      else match segments rest with
           | h :: t => String c h :: t
           | [] => [String c EmptyString]
           end
  end.

Fixpoint strip_prefix (p s : string) : option string :=
  match p with
  | EmptyString => Some s
  | String a p' =>
      match s with
      | EmptyString => None
      | String b s' => if Ascii.eqb a b then strip_prefix p' s' else None
      end
  end.

Fixpoint strip_suffix (tail s : string) : option string :=
  if String.eqb s tail then Some EmptyString
  else match s with
       | EmptyString => None
       | String c rest => option_map (String c) (strip_suffix tail rest)
       end.

(** The identifier for which [prefix ++ id ++ suffix] is [path], if any. *)
Definition slot_of (prefix suffix path : string) : option string :=
  match strip_prefix prefix path with
  | Some rest => strip_suffix suffix rest
  | None => None
  end.

(** Two texts that differ at a position both of them have. *)
Fixpoint diverge (a b : string) : bool :=
  match a, b with
  | String x a', String y b' => if Ascii.eqb x y then diverge a' b' else true
  | _, _ => false
  end.

(** The functions of [API_PATH] that reach a constant of [API_PATH], with
    the identifier at which they do: (function, identifier, constant). *)
Definition constant_collisions : list (string * string * string) :=
  [ ("INNKEEPER_TENANT", "", "INNKEEPER_TENANTS");
    ("CONNECTION", "create-invitation", "CONNECTIONS_CREATE_INVITATION");
    ("HOLDER_CREDENTIAL", "", "HOLDER_CREDENTIALS");
    ("HOLDER_PRESENTATION", "", "HOLDER_PRESENTATIONS");
    ("ISSUER_CREDENTIAL", "", "ISSUER_CREDENTIALS");
    ("VERIFIER_PRESENTATION", "", "VERIFIER_PRESENTATIONS");
    ("VERIFIER_PRESENTATION", "adhoc-request",
      "VERIFIER_PRESENTATION_ADHOC_REQUEST");
    ("GOVERNANCE_SCHEMA_TEMPLATE", "", "GOVERNANCE_SCHEMA_TEMPLATES");
    ("GOVERNANCE_SCHEMA_TEMPLATE", "import",
      "GOVERNANCE_SCHEMA_TEMPLATES_IMPORT");
    ("GOVERNANCE_CREDENTIAL_TEMPLATE", "", "GOVERNANCE_CREDENTIAL_TEMPLATES") ].

(** The functions whose path lies below the path of an item function:
    (item function, nested function, what the nested one appends). *)
Definition nested_routes : list (string * string * string) :=
  [ ("CONNECTION", "CONNECTIONS_INVITATION", "/invitation");
    ("CONNECTION", "BASICMESSAGES_SEND", "/send-message");
    ("HOLDER_CREDENTIAL", "HOLDER_CREDENTIALS_ACCEPT_OFFER", "/accept-offer");
    ("HOLDER_CREDENTIAL", "HOLDER_CREDENTIALS_REJECT_OFFER", "/reject-offer");
    ("ISSUER_CREDENTIAL", "ISSUER_CREDENTIAL_REVOKE", "/revoke-credential");
    ("MULTITENANCY_RESERVATION", "MULTITENANCY_RESERVATION_CHECK_IN",
      "/check-in") ].

(** How the templates of two functions of the table relate. *)
Inductive PairShape (n1 p1 s1 n2 p2 s2 : string) : Prop :=
| Same : n1 = n2 -> p1 = p2 -> s1 = s2 -> PairShape n1 p1 s1 n2 p2 s2
| Apart : diverge p1 p2 = true -> PairShape n1 p1 s1 n2 p2 s2
| Clash :
    p1 = p2 -> ends_with s1 s2 = false -> ends_with s2 s1 = false ->
    PairShape n1 p1 s1 n2 p2 s2
| Above :
    p1 = p2 -> s1 = EmptyString -> separator s2 = true -> s2 <> EmptyString ->
    In (n1, n2, s2) nested_routes -> PairShape n1 p1 s1 n2 p2 s2
| Below :
    p1 = p2 -> s2 = EmptyString -> separator s1 = true -> s1 <> EmptyString ->
    In (n2, n1, s1) nested_routes -> PairShape n1 p1 s1 n2 p2 s2.

Definition nonempty (s : string) : bool :=
  match s with
  | EmptyString => false
  | String _ _ => true
  end.

(** The fixed segments a template puts before and after its slot, for a
    prefix that is a slash-terminated absolute path and a suffix that is
    empty or starts a new segment; the segments have to be non-empty. *)
Definition route_shape (p s : string) : option (list string * list string) :=
  match segments p, segments s with
  | EmptyString :: mid, EmptyString :: after =>
      match rev mid with
      | EmptyString :: rfixed =>
          if forallb nonempty (rev rfixed ++ after)%list
          then Some (rev rfixed, after)
          else None
      | _ => None
      end
  | _, _ => None
  end.

(** ** Basic facts about the evaluator *)

Lemma lookup_own_parameter p id st :
  ident p {| param := p; arg := id |} st = (Normal id, st).
Proof.
  unfold ident; simpl. now rewrite String.eqb_refl.
Qed.

Lemma one_slot_template p q s :
  fills_slot (arrow p (template [q; s] [ident p])) q s.
Proof.
  intros id st. unfold arrow. simpl template.
  now rewrite lookup_own_parameter.
Qed.

Lemma length_append a b : String.length (a ++ b) = String.length a + String.length b.
Proof.
  induction a as [|c a IH]; simpl; [reflexivity | now rewrite IH].
Qed.

Lemma substring_whole_prefix a b :
  substring 0 (String.length a) (a ++ b) = a.
Proof.
  induction a as [|c a IH]; simpl.
  - destruct b; reflexivity.
  - now rewrite IH.
Qed.

Lemma substring_skip_prefix p n s :
  substring (String.length p) n (p ++ s) = substring 0 n s.
Proof.
  induction p as [|c p IH]; simpl; [reflexivity | exact IH].
Qed.

Lemma substring_slot p id s :
  substring (String.length p) (String.length id) (p ++ id ++ s) = id.
Proof.
  rewrite substring_skip_prefix. apply substring_whole_prefix.
Qed.

Lemma starts_with_slash_get s :
  starts_with_slash s = true -> s <> "" /\ get 0 s = Some "/"%char.
Proof.
  destruct s as [|c s]; simpl; [discriminate |].
  intros H. apply Ascii.eqb_eq in H. subst c. split; [discriminate | reflexivity].
Qed.

Lemma starts_with_slash_append p s :
  starts_with_slash p = true -> starts_with_slash (p ++ s) = true.
Proof.
  destruct p; simpl; [discriminate | auto].
Qed.

(** ** Walking the route table *)

Lemma in_templated_entries name f obj :
  In (name, TemplatedPath f) obj -> In (name, f) (templated_entries obj).
Proof.
  intros H. unfold templated_entries. apply in_flat_map.
  exists (name, TemplatedPath f). split; [exact H | simpl; auto].
Qed.

Lemma in_constant_entries name s obj :
  In (name, ConstantPath s) obj -> In (name, s) (constant_entries obj).
Proof.
  intros H. unfold constant_entries. apply in_flat_map.
  exists (name, ConstantPath s). split; [exact H | simpl; auto].
Qed.

Lemma each_templated (P : string -> Accessor -> Prop) :
  Forall (fun nf => P (fst nf) (snd nf)) (templated_entries API_PATH.entries) ->
  forall name f, In (name, TemplatedPath f) API_PATH.entries -> P name f.
Proof.
  intros HP name f Hin. rewrite Forall_forall in HP.
  exact (HP (name, f) (in_templated_entries _ _ _ Hin)).
Qed.

Lemma each_constant (P : string -> string -> Prop) :
  Forall (fun ns => P (fst ns) (snd ns)) (constant_entries API_PATH.entries) ->
  forall name s, In (name, ConstantPath s) API_PATH.entries -> P name s.
Proof.
  intros HP name s Hin. rewrite Forall_forall in HP.
  exact (HP (name, s) (in_constant_entries _ _ _ Hin)).
Qed.

(** No property name is written twice, so [property] finds the one entry
    of a name. *)
Lemma property_names_unique : NoDup (map fst API_PATH.entries).
Proof.
  apply (NoDup_count_occ string_dec). intros x.
  destruct (in_dec string_dec x (map fst API_PATH.entries)) as [Hin | Hout].
  - cbn in Hin.
    repeat (destruct Hin as [<- | Hin]; [vm_compute; lia |]). contradiction.
  - apply (count_occ_not_In string_dec) in Hout. rewrite Hout. lia.
Qed.

Lemma property_of_entry name e :
  In (name, e) API_PATH.entries -> property name API_PATH.entries = Some e.
Proof.
  pose proof property_names_unique as Hnd. revert Hnd.
  induction API_PATH.entries as [| [k v] rest IH]; simpl; [contradiction |].
  intros Hnd [Heq | Hin]; inversion Hnd as [| ? ? Hk Hrest]; subst.
  - injection Heq as -> ->. now rewrite String.eqb_refl.
  - destruct (String.eqb_spec name k) as [-> | _]; [| now apply IH].
    exfalso. apply Hk. apply in_map_iff. now exists (k, e).
Qed.

(** Every function of the table is an arrow function whose body is a
    template literal with one substitution, the parameter itself, after a
    chunk that starts with a slash. *)
Lemma templated_entries_fill_one_slot :
  forall name f, In (name, TemplatedPath f) API_PATH.entries ->
    exists prefix suffix,
      fills_slot f prefix suffix /\ starts_with_slash prefix = true.
Proof.
  apply each_templated.
  repeat (apply Forall_cons || apply Forall_nil);
    cbn [fst snd]; do 2 eexists; (split; [apply one_slot_template | reflexivity]).
Qed.

Ltac in_table := cbn; repeat (first [left; reflexivity | right]).

(** ** The route table *)

(** C1.  Every function of [API_PATH] returns, for every string [id], a
    fixed prefix followed by [id] followed by a fixed suffix, whatever the
    enclosing scopes hold; the tenant accessor maps [abc-123] to
    [/innkeeper/tenants/abc-123] and the send-message accessor maps [conn-1]
    to [/connections/conn-1/send-message]. *)
Theorem templated_path_is_prefix_id_suffix :
  forall name f, In (name, TemplatedPath f) API_PATH.entries ->
    (exists prefix suffix, forall id st,
        fst (f id st) = Normal (prefix ++ id ++ suffix))
    /\ (name = "INNKEEPER_TENANT" ->
        forall st, fst (f "abc-123" st) = Normal "/innkeeper/tenants/abc-123")
    /\ (name = "BASICMESSAGES_SEND" ->
        forall st,
          fst (f "conn-1" st) = Normal "/connections/conn-1/send-message").
Proof.
  intros name f Hin. split.
  - destruct (templated_entries_fill_one_slot _ _ Hin) as (p & s & Hf & _).
    exists p, s. intros id st. now rewrite Hf.
  - revert name f Hin. apply each_templated.
    repeat (apply Forall_cons || apply Forall_nil); cbn [fst snd];
      split; intros Hname st; solve [discriminate Hname | reflexivity].
Qed.

Lemma templated_path_is_prefix_id_suffix_witness :
  In ("INNKEEPER_TENANT", TemplatedPath API_PATH.INNKEEPER_TENANT)
     API_PATH.entries
  /\ fst (API_PATH.INNKEEPER_TENANT "abc-123" [])
     = Normal "/innkeeper/tenants/abc-123"
  /\ In ("BASICMESSAGES_SEND", TemplatedPath API_PATH.BASICMESSAGES_SEND)
        API_PATH.entries
  /\ fst (API_PATH.BASICMESSAGES_SEND "conn-1" [("id", "other")])
     = Normal "/connections/conn-1/send-message".
Proof.
  assert (Ht : In ("INNKEEPER_TENANT", TemplatedPath API_PATH.INNKEEPER_TENANT)
                  API_PATH.entries) by in_table.
  assert (Hb : In ("BASICMESSAGES_SEND",
                   TemplatedPath API_PATH.BASICMESSAGES_SEND)
                  API_PATH.entries) by in_table.
  split; [exact Ht | split]; [| split; [exact Hb |]].
  - exact (proj1 (proj2 (templated_path_is_prefix_id_suffix _ _ Ht))
             eq_refl []).
  - exact (proj2 (proj2 (templated_path_is_prefix_id_suffix _ _ Hb))
             eq_refl [("id", "other")]).
Defined.

(** C2.  Every constant of [API_PATH] has, byte for byte, the text of the
    literal documented for it, and the documentation has a literal for no
    other name; in particular the constants the documentation names
    together with their text have exactly that text, and every constant
    is one of the literals of the documented table. *)
Theorem constant_paths_equal_documented_literals :
  (forall name lit, In (name, lit) documented_by_name ->
     property name API_PATH.entries = Some (ConstantPath lit))
  /\ (forall name s, In (name, ConstantPath s) API_PATH.entries ->
        documented s = true)
  /\ (forall name s, In (name, ConstantPath s) API_PATH.entries ->
        exists d, In (name, d) documented_constants /\ s = written_out d)
  /\ (forall name d, In (name, d) documented_constants ->
        In (name, ConstantPath (written_out d)) API_PATH.entries
        /\ In (as_written d) documented_literal_paths)
  /\ NoDup (map fst documented_constants).
Proof.
  split; [| split; [| split; [| split]]].
  - intros name lit Hin. cbn in Hin.
    repeat (destruct Hin as [Hin | Hin];
            [injection Hin as <- <-; reflexivity |]).
    contradiction.
  - apply each_constant.
    repeat (apply Forall_cons || apply Forall_nil); reflexivity.
  - apply (each_constant
             (fun name s =>
                exists d, In (name, d) documented_constants
                          /\ s = written_out d)).
    repeat (apply Forall_cons || apply Forall_nil); cbn [fst snd];
      eexists; (split; [solve [in_table] | reflexivity]).
  - intros name d Hin. cbn in Hin.
    repeat (destruct Hin as [Hin | Hin];
            [injection Hin as <- <-; split; solve [in_table] |]).
    contradiction.
  - apply (NoDup_count_occ string_dec). intros x.
    destruct (in_dec string_dec x (map fst documented_constants))
      as [Hin | Hout].
    + cbn in Hin.
      repeat (destruct Hin as [<- | Hin]; [vm_compute; lia |]). contradiction.
    + apply (count_occ_not_In string_dec) in Hout. rewrite Hout. lia.
Qed.

Lemma constant_paths_equal_documented_literals_witness :
  In ("VERIFIER_PRESENTATION_ADHOC_REQUEST",
      "/tenant/v1/verifier/presentations/adhoc-request") documented_by_name
  /\ property "VERIFIER_PRESENTATION_ADHOC_REQUEST" API_PATH.entries
     = Some (ConstantPath "/tenant/v1/verifier/presentations/adhoc-request")
  /\ In ("GOVERNANCE_SCHEMA_TEMPLATES_IMPORT",
         ConstantPath "/tenant/v1/governance/schema_templates/import")
        API_PATH.entries
  /\ documented "/tenant/v1/governance/schema_templates/import" = true
  /\ (exists d, In ("GOVERNANCE_SCHEMA_TEMPLATES_IMPORT", d)
                   documented_constants
                /\ "/tenant/v1/governance/schema_templates/import"
                   = written_out d)
  /\ In ("EMAIL_STATUS", InFull "/email/reservationStatus")
        documented_constants
  /\ In ("EMAIL_STATUS", ConstantPath "/email/reservationStatus")
        API_PATH.entries.
Proof.
  assert (Hn : In ("VERIFIER_PRESENTATION_ADHOC_REQUEST",
                   "/tenant/v1/verifier/presentations/adhoc-request")
                  documented_by_name) by in_table.
  assert (He : In ("GOVERNANCE_SCHEMA_TEMPLATES_IMPORT",
                   ConstantPath "/tenant/v1/governance/schema_templates/import")
                  API_PATH.entries) by in_table.
  assert (Hd : In ("EMAIL_STATUS", InFull "/email/reservationStatus")
                  documented_constants) by in_table.
  pose proof constant_paths_equal_documented_literals
    as (Hnamed & Hlisted & Hexact & Honly & _).
  split; [exact Hn | split; [exact (Hnamed _ _ Hn) |]].
  split; [exact He | split; [exact (Hlisted _ _ He) |]].
  split; [exact (Hexact _ _ He) |].
  split; [exact Hd | exact (proj1 (Honly _ _ Hd))].
Defined.

(** C3.  Every path the table yields, a constant or the result of a
    function on any string, is a non-empty string whose first character is
    a slash. *)
Theorem every_path_starts_with_slash :
  forall name e, In (name, e) API_PATH.entries ->
    forall id st, exists p,
      path_of e id st = Normal p /\ p <> "" /\ get 0 p = Some "/"%char.
Proof.
  intros name [s | f] Hin id st; simpl.
  - exists s. split; [reflexivity |]. apply starts_with_slash_get.
    revert name s Hin. apply each_constant.
    repeat (apply Forall_cons || apply Forall_nil); reflexivity.
  - destruct (templated_entries_fill_one_slot _ _ Hin) as (p & s & Hf & Hp).
    exists (p ++ id ++ s). rewrite Hf. split; [reflexivity |].
    apply starts_with_slash_get. now apply starts_with_slash_append.
Qed.

Lemma every_path_starts_with_slash_witness :
  In ("CONNECTIONS_INVITATION", TemplatedPath API_PATH.CONNECTIONS_INVITATION)
     API_PATH.entries
  /\ exists p,
      path_of (TemplatedPath API_PATH.CONNECTIONS_INVITATION) "" [] = Normal p
      /\ p <> "" /\ get 0 p = Some "/"%char.
Proof.
  assert (Hin : In ("CONNECTIONS_INVITATION",
                    TemplatedPath API_PATH.CONNECTIONS_INVITATION)
                   API_PATH.entries) by in_table.
  split; [exact Hin |].
  exact (every_path_starts_with_slash _ _ Hin "" []).
Defined.

(** ** Pagination options and status vocabularies *)

(** C4.  The default page size is 10 and is one of the selectable sizes,
    which are exactly 10, 25 and 50, in strictly ascending order. *)
Theorem rows_default_among_ascending_options :
  TABLE_OPT.ROWS_DEFAULT = 10%Z
  /\ In TABLE_OPT.ROWS_DEFAULT TABLE_OPT.ROWS_OPTIONS
  /\ TABLE_OPT.ROWS_OPTIONS = [10; 25; 50]%Z
  /\ StronglySorted Z.lt TABLE_OPT.ROWS_OPTIONS.
Proof.
  unfold TABLE_OPT.ROWS_DEFAULT, TABLE_OPT.ROWS_OPTIONS.
  repeat split.
  - now left.
  - repeat constructor; lia.
Qed.

(** C5.  The connection statuses are three pairwise distinct values, and
    as a set they are invitation, active and response. *)
Theorem connection_statuses_three_distinct :
  List.length CONNECTION_STATUSES.values = 3
  /\ NoDup CONNECTION_STATUSES.values
  /\ forall s, In s CONNECTION_STATUSES.values
               <-> s = "invitation" \/ s = "active" \/ s = "response".
Proof.
  split; [reflexivity | split].
  - repeat constructor; cbn; intuition discriminate.
  - intros s. cbv. intuition (subst; auto; congruence).
Qed.

(** C6.  The reservation statuses are five pairwise distinct values:
    approved, checked_in, denied, requested and show_wallet, the last of
    which is none of the four statuses the API reports. *)
Theorem reservation_statuses_five_distinct :
  List.length RESERVATION_STATUSES.values = 5
  /\ NoDup RESERVATION_STATUSES.values
  /\ (forall s, In s RESERVATION_STATUSES.values
                <-> s = "approved" \/ s = "checked_in" \/ s = "denied"
                    \/ s = "requested" \/ s = "show_wallet")
  /\ RESERVATION_STATUSES.SHOW_WALLET = "show_wallet"
  /\ RESERVATION_STATUSES.backend_values
     = ["approved"; "checked_in"; "denied"; "requested"]
  /\ ~ In RESERVATION_STATUSES.SHOW_WALLET RESERVATION_STATUSES.backend_values.
Proof.
  split; [reflexivity | split; [| split; [| repeat split]]].
  - repeat constructor; cbn; intuition discriminate.
  - intros s. cbv. intuition (subst; auto; congruence).
  - cbn. intuition discriminate.
Qed.

(** ** Behaviour of the functions on arbitrary identifiers *)

(** C7.  Every function of the table returns normally on every string, and
    the result carries the argument unchanged at a fixed offset, with
    nothing but the fixed text of the template around it: the empty string
    and strings with slashes, question marks, hashes or spaces are neither
    rejected nor rewritten. *)
Theorem templated_path_total_and_verbatim :
  forall name f, In (name, TemplatedPath f) API_PATH.entries ->
    (exists offset fixed, forall id st, exists out,
        fst (f id st) = Normal out
        /\ String.length out = fixed + String.length id
        /\ substring offset (String.length id) out = id)
    /\ (name = "INNKEEPER_TENANT" ->
        forall st,
          fst (f "" st) = Normal "/innkeeper/tenants/"
          /\ fst (f "a/b?c#d e" st) = Normal "/innkeeper/tenants/a/b?c#d e")
    /\ (name = "MULTITENANCY_RESERVATION" ->
        forall st,
          fst (f "" st) = Normal "/multitenancy/reservations/"
          /\ fst (f "a/b?c#d e" st)
             = Normal "/multitenancy/reservations/a/b?c#d e").
Proof.
  intros name f Hin. split.
  - destruct (templated_entries_fill_one_slot _ _ Hin) as (p & s & Hf & _).
    exists (String.length p), (String.length p + String.length s).
    intros id st. exists (p ++ id ++ s). rewrite Hf. cbn [fst].
    split; [reflexivity | split].
    + rewrite !length_append. lia.
    + apply substring_slot.
  - revert name f Hin. apply each_templated.
    repeat (apply Forall_cons || apply Forall_nil); cbn [fst snd];
      split; intros Hname st;
      solve [discriminate Hname | split; reflexivity].
Qed.

Lemma templated_path_total_and_verbatim_witness :
  In ("MULTITENANCY_RESERVATION",
      TemplatedPath API_PATH.MULTITENANCY_RESERVATION) API_PATH.entries
  /\ fst (API_PATH.MULTITENANCY_RESERVATION "" [])
     = Normal "/multitenancy/reservations/"
  /\ fst (API_PATH.MULTITENANCY_RESERVATION "a/b?c#d e" [])
     = Normal "/multitenancy/reservations/a/b?c#d e".
Proof.
  assert (Hin : In ("MULTITENANCY_RESERVATION",
                    TemplatedPath API_PATH.MULTITENANCY_RESERVATION)
                   API_PATH.entries) by in_table.
  split; [exact Hin |].
  exact (proj2 (proj2 (templated_path_total_and_verbatim _ _ Hin)) eq_refl []).
Defined.

(** C8.  Every function of the table gives the same result for the same
    argument whatever the enclosing scopes bind, and leaves those bindings
    as it found them. *)
Theorem templated_path_deterministic_and_pure :
  forall name f, In (name, TemplatedPath f) API_PATH.entries ->
    forall id st1 st2,
      fst (f id st1) = fst (f id st2) /\ snd (f id st1) = st1.
Proof.
  intros name f Hin id st1 st2.
  destruct (templated_entries_fill_one_slot _ _ Hin) as (p & s & Hf & _).
  rewrite !Hf. split; reflexivity.
Qed.

Lemma templated_path_deterministic_and_pure_witness :
  In ("BASICMESSAGES_SEND", TemplatedPath API_PATH.BASICMESSAGES_SEND)
     API_PATH.entries
  /\ fst (API_PATH.BASICMESSAGES_SEND "conn-1" [])
     = fst (API_PATH.BASICMESSAGES_SEND "conn-1"
              [("id", "x"); ("connId", "y")])
  /\ snd (API_PATH.BASICMESSAGES_SEND "conn-1" []) = [].
Proof.
  assert (Hin : In ("BASICMESSAGES_SEND",
                    TemplatedPath API_PATH.BASICMESSAGES_SEND)
                   API_PATH.entries) by in_table.
  split; [exact Hin |].
  exact (templated_path_deterministic_and_pure _ _ Hin "conn-1" []
           [("id", "x"); ("connId", "y")]).
Defined.

(** ** Paths that coincide *)

(** C9.  On the empty string, a function whose collection constant (the
    property named with a further [S]) ends with a slash returns that very
    constant: so do the tenant and the holder-credential accessors, while
    the connection accessor returns [/connections/], which is not the
    constant [/connections]. *)
Theorem empty_id_yields_collection_path :
  (forall name f c,
      In (name, TemplatedPath f) API_PATH.entries ->
      In (name ++ "S", ConstantPath c) API_PATH.entries ->
      ends_with "/" c = true ->
      forall st, fst (f "" st) = Normal c)
  /\ (forall st, fst (API_PATH.INNKEEPER_TENANT "" st)
                 = Normal API_PATH.INNKEEPER_TENANTS)
  /\ (forall st, fst (API_PATH.HOLDER_CREDENTIAL "" st)
                 = Normal API_PATH.HOLDER_CREDENTIALS)
  /\ (forall st, fst (API_PATH.CONNECTION "" st) = Normal "/connections/")
  /\ API_PATH.CONNECTIONS = "/connections"
  /\ "/connections/" <> API_PATH.CONNECTIONS.
Proof.
  split; [| repeat split; discriminate].
  intros name f c Hf. revert c. revert name f Hf.
  apply (each_templated
           (fun name f =>
              forall c, In (name ++ "S", ConstantPath c) API_PATH.entries ->
                        ends_with "/" c = true ->
                        forall st, fst (f "" st) = Normal c)).
  repeat (apply Forall_cons || apply Forall_nil); cbn [fst snd];
    intros c Hc Hend st; apply in_constant_entries in Hc; cbn in Hc;
    repeat (destruct Hc as [Hc | Hc];
            [ try discriminate Hc; injection Hc as <-;
              solve [discriminate Hend | reflexivity] |]);
    contradiction.
Qed.

Lemma empty_id_yields_collection_path_witness :
  In ("ISSUER_CREDENTIAL", TemplatedPath API_PATH.ISSUER_CREDENTIAL)
     API_PATH.entries
  /\ In ("ISSUER_CREDENTIAL" ++ "S", ConstantPath API_PATH.ISSUER_CREDENTIALS)
        API_PATH.entries
  /\ ends_with "/" API_PATH.ISSUER_CREDENTIALS = true
  /\ fst (API_PATH.ISSUER_CREDENTIAL "" []) = Normal API_PATH.ISSUER_CREDENTIALS.
Proof.
  assert (Hf : In ("ISSUER_CREDENTIAL", TemplatedPath API_PATH.ISSUER_CREDENTIAL)
                  API_PATH.entries) by in_table.
  assert (Hc : In ("ISSUER_CREDENTIAL" ++ "S",
                   ConstantPath API_PATH.ISSUER_CREDENTIALS)
                  API_PATH.entries) by in_table.
  assert (He : ends_with "/" API_PATH.ISSUER_CREDENTIALS = true) by reflexivity.
  split; [exact Hf | split; [exact Hc | split; [exact He |]]].
  exact (proj1 empty_id_yields_collection_path _ _ _ Hf Hc He []).
Defined.

(** C10.  The presentation accessor applied to [adhoc-request] yields the
    ad-hoc request constant, and the schema template accessor applied to
    [import] yields the import constant: distinct properties of the table
    can yield the same path. *)
Theorem templated_path_collides_with_constant :
  (forall st, fst (API_PATH.VERIFIER_PRESENTATION "adhoc-request" st)
              = Normal API_PATH.VERIFIER_PRESENTATION_ADHOC_REQUEST)
  /\ (forall st, fst (API_PATH.GOVERNANCE_SCHEMA_TEMPLATE "import" st)
                 = Normal API_PATH.GOVERNANCE_SCHEMA_TEMPLATES_IMPORT)
  /\ ~ collision_free API_PATH.entries.
Proof.
  split; [reflexivity | split; [reflexivity |]].
  intros Hfree.
  assert (Habs : "VERIFIER_PRESENTATION" = "VERIFIER_PRESENTATION_ADHOC_REQUEST").
  { apply (Hfree _ (TemplatedPath API_PATH.VERIFIER_PRESENTATION)
                 _ (ConstantPath API_PATH.VERIFIER_PRESENTATION_ADHOC_REQUEST)
                 "adhoc-request" "" []).
    - in_table.
    - in_table.
    - reflexivity. }
  discriminate Habs.
Qed.

(** ** Text lemmas for reading paths back *)

Lemma append_empty_r s : s ++ "" = s.
Proof.
  induction s as [|c s IH]; simpl; [reflexivity | now rewrite IH].
Qed.

Lemma append_assoc a b c : (a ++ b) ++ c = a ++ b ++ c.
Proof.
  induction a as [|x a IH]; simpl; [reflexivity | now rewrite IH].
Qed.

Lemma longer_is_different c a s : String c (a ++ s) <> s.
Proof.
  intros H. apply (f_equal String.length) in H. simpl in H.
  rewrite length_append in H. lia.
Qed.

Lemma strip_prefix_spec p s x : strip_prefix p s = Some x <-> p ++ x = s.
Proof.
  revert s. induction p as [|a p IH]; intros s; simpl.
  - split; [now intros [= ->] | now intros ->].
  - destruct s as [|b s].
    + split; discriminate.
    + destruct (Ascii.eqb_spec a b) as [-> | Hab].
      * rewrite IH. split; [now intros -> | now intros [= ->]].
      * split; [discriminate | intros [= Heq _]; contradiction].
Qed.

Lemma strip_suffix_spec tail s x : strip_suffix tail s = Some x <-> x ++ tail = s.
Proof.
  revert x. induction s as [|c s IH]; intros x.
  - simpl. destruct tail as [|d tail]; simpl.
    + split; [now intros [= <-] | ].
      destruct x; [reflexivity | discriminate].
    + split; [discriminate |]. destruct x; discriminate.
  - cbn [strip_suffix].
    destruct (String.eqb_spec (String c s) tail) as [Heq | Hne].
    + split.
      * now intros [= <-].
      * intros Hx. destruct x as [|d x]; [reflexivity |].
        exfalso. simpl in Hx. injection Hx as -> Hx.
        apply (longer_is_different c x tail). now rewrite Hx.
    + destruct x as [|d x].
      * split.
        -- destruct (strip_suffix tail s); discriminate.
        -- simpl. intros ->. contradiction.
      * simpl. split.
        -- destruct (strip_suffix tail s) as [y|] eqn:Hy; [| discriminate].
           intros [= -> ->]. f_equal. now apply IH.
        -- intros [= -> Hx]. apply IH in Hx. now rewrite Hx.
Qed.

Lemma slot_of_spec p s path id : slot_of p s path = Some id <-> p ++ id ++ s = path.
Proof.
  unfold slot_of. split.
  - destruct (strip_prefix p path) as [rest|] eqn:Hp; [| discriminate].
    intros Hs. apply strip_suffix_spec in Hs. apply strip_prefix_spec in Hp.
    now subst.
  - intros <-.
    assert (Hp : strip_prefix p (p ++ id ++ s) = Some (id ++ s))
      by now apply strip_prefix_spec.
    rewrite Hp. now apply strip_suffix_spec.
Qed.

Lemma slot_of_filled p s id : slot_of p s (p ++ id ++ s) = Some id.
Proof. now apply slot_of_spec. Qed.

Lemma diverge_append a b x y : diverge a b = true -> a ++ x <> b ++ y.
Proof.
  revert b. induction a as [|c a IH]; intros [|d b]; simpl; try discriminate.
  destruct (Ascii.eqb_spec c d) as [-> | Hcd].
  - intros Hd [= Heq]. now apply (IH b).
  - intros _ [= Heq _]. contradiction.
Qed.

Lemma ends_with_append a s : ends_with s (a ++ s) = true.
Proof.
  induction a as [|c a IH]; simpl.
  - destruct s; simpl; [reflexivity |].
    now rewrite Ascii.eqb_refl, String.eqb_refl.
  - rewrite IH. apply Bool.orb_true_r.
Qed.

Lemma append_meet a b s t :
  a ++ s = b ++ t -> ends_with s t = true \/ ends_with t s = true.
Proof.
  revert b. induction a as [|c a IH]; intros b; simpl.
  - intros ->. right. apply ends_with_append.
  - destruct b as [|d b]; simpl.
    + intros <-. left. apply (ends_with_append (String c a)).
    + intros [= _ Heq]. now apply (IH b).
Qed.

Lemma slash_free_then_separator a s :
  slash_free (a ++ s) = true -> s <> "" -> separator s = false.
Proof.
  induction a as [|c a IH]; simpl.
  - destruct s as [|d s]; simpl; [contradiction |].
    intros H _. apply Bool.andb_true_iff in H. destruct H as [H _].
    now apply Bool.negb_true_iff in H.
  - intros H. apply Bool.andb_true_iff in H. destruct H as [_ H]. now apply IH.
Qed.

Lemma append_cancel_l p x y : p ++ x = p ++ y -> x = y.
Proof.
  intros H. apply strip_prefix_spec in H.
  assert (Hy : strip_prefix p (p ++ y) = Some y) by now apply strip_prefix_spec.
  congruence.
Qed.

Lemma segments_not_nil s : segments s <> [].
Proof.
  destruct s as [|c s]; simpl; [discriminate |].
  destruct (Ascii.eqb c "/"); [discriminate |].
  destruct (segments s); discriminate.
Qed.

Lemma segments_slash_free id : slash_free id = true -> segments id = [id].
Proof.
  induction id as [|c id IH]; simpl; [reflexivity |].
  intros H. apply Bool.andb_true_iff in H. destruct H as [Hc Hid].
  apply Bool.negb_true_iff in Hc. rewrite Hc, (IH Hid). reflexivity.
Qed.

(** Cutting a concatenation: only the last segment of the first text and
    the first segment of the second one are glued together. *)
Lemma segments_append a r :
  segments (a ++ r)
  = (removelast (segments a)
       ++ (last (segments a) "" ++ hd "" (segments r))%string
          :: tl (segments r))%list.
Proof.
  induction a as [|c a IH]; simpl.
  - destruct (segments r) eqn:Hr; [now apply segments_not_nil in Hr | reflexivity].
  - destruct (Ascii.eqb c "/").
    + rewrite IH. pose proof (segments_not_nil a) as Ha.
      destruct (segments a) as [|h t]; [contradiction | reflexivity].
    + rewrite IH. pose proof (segments_not_nil a) as Ha.
      destruct (segments a) as [|h [|h' t]]; [contradiction | reflexivity |].
      reflexivity.
Qed.

Lemma route_shape_segments p s fixed after id :
  route_shape p s = Some (fixed, after) ->
  slash_free id = true ->
  Forall (fun x => x <> "") (fixed ++ after)%list
  /\ segments (p ++ id ++ s) = ("" :: fixed ++ id :: after)%list.
Proof.
  unfold route_shape. intros Hshape Hid.
  destruct (segments p) as [|[|? ?] mid] eqn:Hp; try discriminate.
  destruct (segments s) as [|[|? ?] after'] eqn:Hs; try discriminate.
  destruct (rev mid) as [|[|? ?] rfixed] eqn:Hmid; try discriminate.
  destruct (forallb nonempty (rev rfixed ++ after')%list) eqn:Hne;
    [| discriminate].
  injection Hshape as <- <-.
  assert (Hm : mid = (rev rfixed ++ [""])%list).
  { rewrite <- (rev_involutive mid), Hmid. reflexivity. }
  split.
  - apply Forall_forall. intros x Hx Hempty.
    rewrite forallb_forall in Hne. specialize (Hne x Hx). now subst x.
  - rewrite segments_append, Hp, (segments_append id s), Hs.
    rewrite (segments_slash_free id Hid). subst mid.
    change ("" :: rev rfixed ++ [""])%list
      with (("" :: rev rfixed) ++ [""])%list.
    rewrite removelast_last, last_last.
    cbn [hd tl removelast last app String.append].
    now rewrite append_empty_r.
Qed.

(** ** Templates of the table, one by one and two by two *)

Lemma templated_entries_route_shape :
  forall name f, In (name, TemplatedPath f) API_PATH.entries ->
    exists p s fixed after,
      fills_slot f p s /\ route_shape p s = Some (fixed, after).
Proof.
  apply each_templated.
  repeat (apply Forall_cons || apply Forall_nil); cbn [fst snd];
    do 4 eexists; (split; [apply one_slot_template | reflexivity]).
Qed.

Ltac pair_shape :=
  first
    [ apply Same; reflexivity
    | apply Apart; reflexivity
    | apply Clash; reflexivity
    | apply Above;
      [reflexivity | reflexivity | reflexivity | discriminate | solve [in_table]]
    | apply Below;
      [reflexivity | reflexivity | reflexivity | discriminate | solve [in_table]] ].

Lemma templated_pair_shape :
  forall n1 f, In (n1, TemplatedPath f) API_PATH.entries ->
  forall n2 g, In (n2, TemplatedPath g) API_PATH.entries ->
    exists p1 s1 p2 s2,
      fills_slot f p1 s1 /\ fills_slot g p2 s2
      /\ PairShape n1 p1 s1 n2 p2 s2.
Proof.
  apply (each_templated
           (fun n1 f =>
              forall n2 g, In (n2, TemplatedPath g) API_PATH.entries ->
                exists p1 s1 p2 s2,
                  fills_slot f p1 s1 /\ fills_slot g p2 s2
                  /\ PairShape n1 p1 s1 n2 p2 s2)).
  repeat (apply Forall_cons || apply Forall_nil); cbn [fst snd];
    match goal with
    | |- forall n2 g, In (n2, TemplatedPath g) _ -> @?Q n2 g =>
        apply (each_templated Q)
    end;
    repeat (apply Forall_cons || apply Forall_nil); cbn [fst snd];
    do 4 eexists;
    (split; [apply one_slot_template
            | split; [apply one_slot_template | pair_shape]]).
Qed.

Lemma constant_paths_no_duplicate :
  NoDup (map snd (constant_entries API_PATH.entries)).
Proof.
  apply (NoDup_count_occ string_dec). intros x.
  destruct (in_dec string_dec x (map snd (constant_entries API_PATH.entries)))
    as [Hin | Hout].
  - cbn in Hin.
    repeat (destruct Hin as [<- | Hin]; [vm_compute; lia |]). contradiction.
  - apply (count_occ_not_In string_dec) in Hout. rewrite Hout. lia.
Qed.

Lemma unique_value_unique_key (l : list (string * string)) a b c :
  NoDup (map snd l) -> In (a, c) l -> In (b, c) l -> a = b.
Proof.
  induction l as [| [k v] l IH]; simpl; [contradiction |].
  intros Hnd Ha Hb. inversion Hnd as [| ? ? Hv Hrest]; subst.
  assert (Hfresh : forall x, In (x, v) l -> False).
  { intros x Hx. apply Hv. apply in_map_iff. now exists (x, v). }
  destruct Ha as [Ha | Ha], Hb as [Hb | Hb].
  - congruence.
  - exfalso. apply (Hfresh b). congruence.
  - exfalso. apply (Hfresh a). congruence.
  - now apply IH.
Qed.

(** ** Further properties of the route table *)

(** X1.  A function of the table never sends two different identifiers to
    the same path, whatever the identifiers contain. *)
Theorem templated_path_injective :
  forall name f, In (name, TemplatedPath f) API_PATH.entries ->
    forall id1 id2 st1 st2,
      fst (f id1 st1) = fst (f id2 st2) -> id1 = id2.
Proof.
  intros name f Hin id1 id2 st1 st2.
  destruct (templated_entries_fill_one_slot _ _ Hin) as (p & s & Hf & _).
  rewrite !Hf. cbn [fst]. intros [= Heq].
  pose proof (slot_of_filled p s id1) as H1. rewrite Heq in H1.
  rewrite slot_of_filled in H1. now injection H1.
Qed.

Lemma templated_path_injective_witness :
  In ("ISSUER_CREDENTIAL_REVOKE", TemplatedPath API_PATH.ISSUER_CREDENTIAL_REVOKE)
     API_PATH.entries
  /\ fst (API_PATH.ISSUER_CREDENTIAL_REVOKE "a/b" [])
     = fst (API_PATH.ISSUER_CREDENTIAL_REVOKE "a/b" [("id", "c")])
  /\ "a/b" = "a/b".
Proof.
  assert (Hin : In ("ISSUER_CREDENTIAL_REVOKE",
                    TemplatedPath API_PATH.ISSUER_CREDENTIAL_REVOKE)
                   API_PATH.entries) by in_table.
  assert (Heq : fst (API_PATH.ISSUER_CREDENTIAL_REVOKE "a/b" [])
                = fst (API_PATH.ISSUER_CREDENTIAL_REVOKE "a/b" [("id", "c")]))
    by reflexivity.
  split; [exact Hin | split; [exact Heq |]].
  exact (templated_path_injective _ _ Hin _ _ _ _ Heq).
Defined.

(** X2.  No two constants of the table hold the same path: a constant path
    names its property. *)
Theorem constant_paths_pairwise_distinct :
  forall n1 n2 c,
    In (n1, ConstantPath c) API_PATH.entries ->
    In (n2, ConstantPath c) API_PATH.entries ->
    n1 = n2.
Proof.
  intros n1 n2 c H1 H2.
  apply (unique_value_unique_key (constant_entries API_PATH.entries) n1 n2 c).
  - exact constant_paths_no_duplicate.
  - now apply in_constant_entries.
  - now apply in_constant_entries.
Qed.

Lemma constant_paths_pairwise_distinct_witness :
  In ("TENANT_SELF", ConstantPath "/tenant") API_PATH.entries
  /\ "TENANT_SELF" = "TENANT_SELF".
Proof.
  assert (Hin : In ("TENANT_SELF", ConstantPath "/tenant") API_PATH.entries)
    by in_table.
  split; [exact Hin |].
  exact (constant_paths_pairwise_distinct _ _ _ Hin Hin).
Defined.

(** X3.  No property name is written twice in the table: two entries
    under one name are one and the same entry, so that no route is silently
    replaced by a later one, and reading a name of the literal yields the
    entry written under it. *)
Theorem property_is_the_written_entry :
  NoDup (map fst API_PATH.entries)
  /\ (forall name e1 e2,
        In (name, e1) API_PATH.entries -> In (name, e2) API_PATH.entries ->
        e1 = e2)
  /\ (forall name e,
        In (name, e) API_PATH.entries ->
        property name API_PATH.entries = Some e).
Proof.
  split; [exact property_names_unique | split].
  - intros name e1 e2 H1 H2.
    apply property_of_entry in H1, H2. congruence.
  - apply property_of_entry.
Qed.

Lemma property_is_the_written_entry_witness :
  In ("CONNECTION", TemplatedPath API_PATH.CONNECTION) API_PATH.entries
  /\ property "CONNECTION" API_PATH.entries
     = Some (TemplatedPath API_PATH.CONNECTION).
Proof.
  assert (Hin : In ("CONNECTION", TemplatedPath API_PATH.CONNECTION)
                   API_PATH.entries) by in_table.
  split; [exact Hin |].
  exact (proj2 (proj2 property_is_the_written_entry) _ _ Hin).
Defined.

(** X4.  For an identifier without a slash, cutting the returned path at
    its slashes gives an empty leading piece, then fixed non-empty
    segments, among which the identifier stands unchanged as one segment
    of its own at a fixed position. *)
Theorem templated_path_segments :
  forall name f, In (name, TemplatedPath f) API_PATH.entries ->
    exists fixed after,
      Forall (fun x => x <> "") (fixed ++ after)%list
      /\ forall id st, slash_free id = true ->
           exists out,
             fst (f id st) = Normal out
             /\ segments out = ("" :: fixed ++ id :: after)%list.
Proof.
  intros name f Hin.
  destruct (templated_entries_route_shape _ _ Hin)
    as (p & s & fixed & after & Hf & Hshape).
  exists fixed, after. split.
  - exact (proj1 (route_shape_segments p s fixed after "" Hshape eq_refl)).
  - intros id st Hid. exists (p ++ id ++ s). rewrite Hf. split; [reflexivity |].
    exact (proj2 (route_shape_segments p s fixed after id Hshape Hid)).
Qed.

Lemma templated_path_segments_witness :
  In ("MULTITENANCY_WALLET_TOKEN",
      TemplatedPath API_PATH.MULTITENANCY_WALLET_TOKEN) API_PATH.entries
  /\ exists fixed after,
      Forall (fun x => x <> "") (fixed ++ after)%list
      /\ forall id st, slash_free id = true ->
           exists out,
             fst (API_PATH.MULTITENANCY_WALLET_TOKEN id st) = Normal out
             /\ segments out = ("" :: fixed ++ id :: after)%list.
Proof.
  assert (Hin : In ("MULTITENANCY_WALLET_TOKEN",
                    TemplatedPath API_PATH.MULTITENANCY_WALLET_TOKEN)
                   API_PATH.entries) by in_table.
  split; [exact Hin |].
  exact (templated_path_segments _ _ Hin).
Defined.

(** ** Where two properties of the table meet *)

Lemma meets_constant_by_slot f p s c n cn :
  fills_slot f p s ->
  (forall id, slot_of p s c = Some id <-> In (n, id, cn) constant_collisions) ->
  forall id st,
    fst (f id st) = Normal c <-> In (n, id, cn) constant_collisions.
Proof.
  intros Hf Hslot id st. rewrite Hf. cbn [fst]. rewrite <- Hslot, slot_of_spec.
  split; [now intros [= ->] | now intros ->].
Qed.

Ltac slot_against_table :=
  intros id;
  match goal with
  | |- ?l = _ <-> _ => let v := eval vm_compute in l in change l with v
  end;
  split;
  [ intros H; first [discriminate H | injection H as <-; solve [in_table]]
  | intros H; cbn in H;
    repeat (destruct H as [H | H];
            [first [discriminate H | injection H as <-; reflexivity] |]);
    contradiction ].

(** X5.  A function of the table returns the path of a constant of the
    table at exactly ten points: seven item functions on the empty
    identifier, and the connection, presentation and schema template
    functions on [create-invitation], [adhoc-request] and [import]. *)
Theorem templated_path_meets_constant_exactly :
  forall name f, In (name, TemplatedPath f) API_PATH.entries ->
  forall cname c, In (cname, ConstantPath c) API_PATH.entries ->
    forall id st,
      fst (f id st) = Normal c <-> In (name, id, cname) constant_collisions.
Proof.
  apply (each_templated
           (fun name f =>
              forall cname c, In (cname, ConstantPath c) API_PATH.entries ->
                forall id st,
                  fst (f id st) = Normal c
                  <-> In (name, id, cname) constant_collisions)).
  repeat (apply Forall_cons || apply Forall_nil); cbn [fst snd];
    match goal with
    | |- forall cname c, In (cname, ConstantPath c) _ -> @?Q cname c =>
        apply (each_constant Q)
    end;
    repeat (apply Forall_cons || apply Forall_nil); cbn [fst snd];
    (eapply meets_constant_by_slot;
     [apply one_slot_template | slot_against_table]).
Qed.

Lemma templated_path_meets_constant_exactly_witness :
  In ("CONNECTION", TemplatedPath API_PATH.CONNECTION) API_PATH.entries
  /\ In ("CONNECTIONS_CREATE_INVITATION",
         ConstantPath API_PATH.CONNECTIONS_CREATE_INVITATION) API_PATH.entries
  /\ fst (API_PATH.CONNECTION "create-invitation" [])
     = Normal API_PATH.CONNECTIONS_CREATE_INVITATION.
Proof.
  assert (Hf : In ("CONNECTION", TemplatedPath API_PATH.CONNECTION)
                  API_PATH.entries) by in_table.
  assert (Hc : In ("CONNECTIONS_CREATE_INVITATION",
                   ConstantPath API_PATH.CONNECTIONS_CREATE_INVITATION)
                  API_PATH.entries) by in_table.
  split; [exact Hf | split; [exact Hc |]].
  apply (templated_path_meets_constant_exactly _ _ Hf _ _ Hc
           "create-invitation" []).
  in_table.
Defined.

(** X6.  On identifiers without a slash the functions of the table never
    meet: equal paths come from the same property and the same
    identifier. *)
Theorem slash_free_paths_unambiguous :
  forall n1 f, In (n1, TemplatedPath f) API_PATH.entries ->
  forall n2 g, In (n2, TemplatedPath g) API_PATH.entries ->
    forall id1 id2 st1 st2,
      slash_free id1 = true -> slash_free id2 = true ->
      fst (f id1 st1) = fst (g id2 st2) ->
      n1 = n2 /\ id1 = id2.
Proof.
  intros n1 f Hf n2 g Hg id1 id2 st1 st2 H1 H2.
  destruct (templated_pair_shape _ _ Hf _ _ Hg)
    as (p1 & s1 & p2 & s2 & Hfs & Hgs & Hshape).
  rewrite Hfs, Hgs. cbn [fst]. intros [= Heq].
  destruct Hshape as [Hn Hp Hs | Hd | Hp Hc1 Hc2 | Hp Hs Hsep Hne _
                     | Hp Hs Hsep Hne _].
  - subst. split; [reflexivity |].
    pose proof (slot_of_filled p2 s2 id1) as Hslot. rewrite Heq in Hslot.
    rewrite slot_of_filled in Hslot. now injection Hslot.
  - exfalso. now apply (diverge_append p1 p2 (id1 ++ s1) (id2 ++ s2)).
  - exfalso. subst p2. apply append_cancel_l in Heq.
    destruct (append_meet _ _ _ _ Heq); congruence.
  - exfalso. subst p2 s1. apply append_cancel_l in Heq.
    rewrite append_empty_r in Heq. subst id1.
    rewrite (slash_free_then_separator _ _ H1 Hne) in Hsep. discriminate.
  - exfalso. subst p2 s2. apply append_cancel_l in Heq.
    rewrite append_empty_r in Heq. subst id2.
    rewrite (slash_free_then_separator _ _ H2 Hne) in Hsep. discriminate.
Qed.

Lemma slash_free_paths_unambiguous_witness :
  In ("CONNECTION", TemplatedPath API_PATH.CONNECTION) API_PATH.entries
  /\ slash_free "conn-1" = true
  /\ fst (API_PATH.CONNECTION "conn-1" [])
     = fst (API_PATH.CONNECTION "conn-1" [("id", "x")])
  /\ "CONNECTION" = "CONNECTION" /\ "conn-1" = "conn-1".
Proof.
  assert (Hin : In ("CONNECTION", TemplatedPath API_PATH.CONNECTION)
                   API_PATH.entries) by in_table.
  assert (Hid : slash_free "conn-1" = true) by reflexivity.
  assert (Heq : fst (API_PATH.CONNECTION "conn-1" [])
                = fst (API_PATH.CONNECTION "conn-1" [("id", "x")]))
    by reflexivity.
  split; [exact Hin | split; [exact Hid | split; [exact Heq |]]].
  exact (slash_free_paths_unambiguous _ _ Hin _ _ Hin _ _ _ _ Hid Hid Heq).
Defined.

(** X7.  Two different functions of the table return the same path only
    when one of them is nested under the other and the identifier given to
    the upper one is the identifier of the nested one followed by what the
    nested one appends. *)
Theorem different_functions_meet_only_when_nested :
  forall n1 f, In (n1, TemplatedPath f) API_PATH.entries ->
  forall n2 g, In (n2, TemplatedPath g) API_PATH.entries ->
    forall id1 id2 st1 st2,
      n1 <> n2 ->
      fst (f id1 st1) = fst (g id2 st2) ->
      (exists tail, In (n1, n2, tail) nested_routes /\ id1 = id2 ++ tail)
      \/ (exists tail, In (n2, n1, tail) nested_routes /\ id2 = id1 ++ tail).
Proof.
  intros n1 f Hf n2 g Hg id1 id2 st1 st2 Hdiff.
  destruct (templated_pair_shape _ _ Hf _ _ Hg)
    as (p1 & s1 & p2 & s2 & Hfs & Hgs & Hshape).
  rewrite Hfs, Hgs. cbn [fst]. intros [= Heq].
  destruct Hshape as [Hn Hp Hs | Hd | Hp Hc1 Hc2 | Hp Hs _ _ Hin
                     | Hp Hs _ _ Hin].
  - contradiction.
  - exfalso. now apply (diverge_append p1 p2 (id1 ++ s1) (id2 ++ s2)).
  - exfalso. subst p2. apply append_cancel_l in Heq.
    destruct (append_meet _ _ _ _ Heq); congruence.
  - left. exists s2. subst p2 s1. apply append_cancel_l in Heq.
    rewrite append_empty_r in Heq. now split.
  - right. exists s1. subst p2 s2. apply append_cancel_l in Heq.
    rewrite append_empty_r in Heq. now split.
Qed.

Lemma different_functions_meet_only_when_nested_witness :
  In ("CONNECTION", TemplatedPath API_PATH.CONNECTION) API_PATH.entries
  /\ In ("BASICMESSAGES_SEND", TemplatedPath API_PATH.BASICMESSAGES_SEND)
        API_PATH.entries
  /\ "CONNECTION" <> "BASICMESSAGES_SEND"
  /\ fst (API_PATH.CONNECTION "c1/send-message" [])
     = fst (API_PATH.BASICMESSAGES_SEND "c1" [])
  /\ ((exists tail, In ("CONNECTION", "BASICMESSAGES_SEND", tail) nested_routes
                    /\ "c1/send-message" = "c1" ++ tail)
      \/ (exists tail, In ("BASICMESSAGES_SEND", "CONNECTION", tail) nested_routes
                       /\ "c1" = "c1/send-message" ++ tail)).
Proof.
  assert (Hf : In ("CONNECTION", TemplatedPath API_PATH.CONNECTION)
                  API_PATH.entries) by in_table.
  assert (Hg : In ("BASICMESSAGES_SEND",
                   TemplatedPath API_PATH.BASICMESSAGES_SEND)
                  API_PATH.entries) by in_table.
  assert (Hne : "CONNECTION" <> "BASICMESSAGES_SEND") by discriminate.
  assert (Heq : fst (API_PATH.CONNECTION "c1/send-message" [])
                = fst (API_PATH.BASICMESSAGES_SEND "c1" [])) by reflexivity.
  split; [exact Hf | split; [exact Hg | split; [exact Hne | split]]];
    [exact Heq |].
  exact (different_functions_meet_only_when_nested
           _ _ Hf _ _ Hg _ _ _ _ Hne Heq).
Defined.

(** X8.  A nested function returns the path its item function returns on
    the longer identifier: the identifier followed by what the nested
    function appends.  An identifier with a slash can therefore reach,
    through the item function, the path of a nested action. *)
Theorem nested_path_is_item_path_of_longer_id :
  forall item nested tail, In (item, nested, tail) nested_routes ->
  forall f g,
    In (item, TemplatedPath f) API_PATH.entries ->
    In (nested, TemplatedPath g) API_PATH.entries ->
    forall id st1 st2, fst (g id st1) = fst (f (id ++ tail) st2).
Proof.
  intros item nested tail Hn f g Hf Hg id st1 st2.
  apply property_of_entry in Hf, Hg. cbn in Hn.
  repeat (destruct Hn as [Hn | Hn];
          [ injection Hn as <- <- <-;
            cbv [property API_PATH.entries String.eqb Ascii.eqb Bool.eqb]
              in Hf, Hg;
            injection Hf as <-; injection Hg as <-;
            cbn; now rewrite append_assoc, ?append_empty_r |]).
  contradiction.
Qed.

Lemma nested_path_is_item_path_of_longer_id_witness :
  In ("HOLDER_CREDENTIAL", "HOLDER_CREDENTIALS_ACCEPT_OFFER", "/accept-offer")
     nested_routes
  /\ In ("HOLDER_CREDENTIAL", TemplatedPath API_PATH.HOLDER_CREDENTIAL)
        API_PATH.entries
  /\ In ("HOLDER_CREDENTIALS_ACCEPT_OFFER",
         TemplatedPath API_PATH.HOLDER_CREDENTIALS_ACCEPT_OFFER)
        API_PATH.entries
  /\ fst (API_PATH.HOLDER_CREDENTIALS_ACCEPT_OFFER "cred-1" [])
     = fst (API_PATH.HOLDER_CREDENTIAL ("cred-1" ++ "/accept-offer") []).
Proof.
  assert (Hn : In ("HOLDER_CREDENTIAL", "HOLDER_CREDENTIALS_ACCEPT_OFFER",
                   "/accept-offer") nested_routes) by in_table.
  assert (Hf : In ("HOLDER_CREDENTIAL", TemplatedPath API_PATH.HOLDER_CREDENTIAL)
                  API_PATH.entries) by in_table.
  assert (Hg : In ("HOLDER_CREDENTIALS_ACCEPT_OFFER",
                   TemplatedPath API_PATH.HOLDER_CREDENTIALS_ACCEPT_OFFER)
                  API_PATH.entries) by in_table.
  split; [exact Hn | split; [exact Hf | split; [exact Hg |]]].
  exact (nested_path_is_item_path_of_longer_id _ _ _ Hn _ _ Hf Hg "cred-1" [] []).
Defined.
